(** * Reading-time estimation: [generateReadingTime] of [src/lib/helpers.ts]

    The only executable code of the site is

    <<
    export function generateReadingTime(text: string): string {
      const wordsPerMinute = 200;
      const noOfWords = text.split(/\s/g).length;
      const minutes = noOfWords / wordsPerMinute;
      const readTime = Math.ceil(minutes);
      return `${readTime} minute read`;
    }
    >>

    The development embeds it twice.  Module [JS] gives the values and the
    built-ins the function calls, as ECMAScript defines them; the top level
    has the four bindings of the body as pure functions on strings, and
    module [Engine] runs the same body in a state-and-exception monad over a
    heap of RegExp objects, which is where "never throws" and "no side
    effect" are statements about something.

    Modelling choices, all about sizes no engine reaches:
    - a string is a finite list of UTF-16 code units, of any length.  Engines
      cap the length of a string below 2^32 - 1, so the default limit
      2^32 - 1 of [split] on the number of parts never truncates, and the
      length of the array is the number of parts;
    - [noOfWords / wordsPerMinute] is computed on exact rationals.  For a
      count below 2^53 the quotient is below 2^46, where binary64 numbers are
      at most 2^-7 apart; a quotient that is not an integer is at least
      1/200 > 2^-8 away from one, so rounding to nearest cannot reach an
      integer and [Math.ceil] of the rounded quotient is the ceiling of the
      exact one ([Math_ceil_round] below);
    - a ceiling below 10^21 is printed by the template literal in plain
      decimal digits. *)

From Stdlib Require Import Ascii String.
From Stdlib Require Decimal DecimalString DecimalPos.
From Stdlib Require Import List Bool Arith NArith ZArith QArith Qround Qabs.
From Stdlib Require Import Lia Lqa.
Import ListNotations.

(** ** The fragment of JavaScript the function uses *)

Module JS.

(** A String value: a sequence of 16-bit code units. *)
Definition code_unit := N.
Definition JSString := list code_unit.

(** A string literal of the source, code unit by code unit. *)
Definition lit (s : string) : JSString :=
  map N_of_ascii (list_ascii_of_string s).

(** The character class [\s] (no [u] flag, so it tests one code unit):
    WhiteSpace and LineTerminator of ECMAScript. *)
Definition is_whitespace (c : code_unit) : bool :=
  (  (9 <=? c) && (c <=? 13)          (* TAB, LF, VT, FF, CR *)
  || (c =? 32)                        (* SPACE *)
  || (c =? 160)                       (* NO-BREAK SPACE *)
  || (c =? 5760)                      (* U+1680 *)
  || (8192 <=? c) && (c <=? 8202)     (* U+2000 .. U+200A *)
  || (c =? 8232) || (c =? 8233)       (* U+2028, U+2029 *)
  || (c =? 8239)                      (* U+202F *)
  || (c =? 8287)                      (* U+205F *)
  || (c =? 12288)                     (* U+3000 *)
  || (c =? 65279)                     (* U+FEFF *)
  )%N.

(** [text.split(/\s/g)].  The loop of RegExp.prototype[Symbol.split] keeps
    the start [p] of the part being read and the position [q] it tries the
    pattern at; here [token] holds the code units of [p..q), last first,
    and [rest] is the input from [q] on.  The pattern matches exactly one
    code unit, so a match at [q] ends at [q + 1]: the part [p..q) is
    pushed and both indices move to [q + 1].  With no match [q] advances
    by one.  At the end the part [p..size) is pushed, also when it is
    empty, and also for the empty input. *)
Fixpoint split_loop (token rest : JSString) : list JSString :=
  match rest with
  | [] => [rev token]
  | c :: rest' =>
      if is_whitespace c
      then rev token :: split_loop [] rest'
      else split_loop (c :: token) rest'
  end.

Definition split (text : JSString) : list JSString := split_loop [] text.

(** [Math.ceil]. *)
Definition Math_ceil (x : Q) : Z := Qceiling x.

(** [ToString] of an integral Number, as the template literal applies it. *)
Definition Number_toString (n : Z) : JSString :=
  lit (DecimalString.NilZero.string_of_int (Z.to_int n)).

End JS.

Import JS.

(** ** The function *)

Definition wordsPerMinute : Q := 200.

Definition noOfWords (text : JSString) : nat := length (split text).

Definition minutes (text : JSString) : Q :=
  inject_Z (Z.of_nat (noOfWords text)) / wordsPerMinute.

Definition readTime (text : JSString) : Z := Math_ceil (minutes text).

Definition generateReadingTime (text : JSString) : JSString :=
  Number_toString (readTime text) ++ lit " minute read".

(** ** Counting separators *)

(** The number of whitespace code units of a string. *)
Definition whitespace_count (text : JSString) : nat :=
  length (filter is_whitespace text).

(** The ceiling of [n / 200] on integers. *)
Definition ceil_div_200 (n : Z) : Z := (n + 199) / 200.

(** ** The tokenization the specification describes

    The specification reads the separator as a run: "any run of one-or-more
    whitespace characters acts as a single separator", with nothing special
    at either end.  [split_runs] follows these words (it is what
    [text.split(/\s+/)] would compute) and is compared with [split] below.
    [in_run] tells that the previous code unit was whitespace. *)

Fixpoint split_runs_loop (token : JSString) (in_run : bool) (rest : JSString)
  : list JSString :=
  match rest with
  | [] => [rev token]
  | c :: rest' =>
      if is_whitespace c
      then if in_run
           then split_runs_loop [] true rest'
           else rev token :: split_runs_loop [] true rest'
      else split_runs_loop (c :: token) false rest'
  end.

Definition split_runs (text : JSString) : list JSString :=
  split_runs_loop [] false text.

(** The number of maximal runs of whitespace code units; [in_run] as above. *)
Fixpoint whitespace_runs_from (in_run : bool) (rest : JSString) : nat :=
  match rest with
  | [] => 0
  | c :: rest' =>
      if is_whitespace c
      then (if in_run then 0 else 1) + whitespace_runs_from true rest'
      else whitespace_runs_from false rest'
  end.

Definition whitespace_runs (text : JSString) : nat :=
  whitespace_runs_from false text.

(** The words of the glossary: the maximal runs of non-whitespace code
    units. *)
Fixpoint words_loop (token rest : JSString) : list JSString :=
  match rest with
  | [] => match token with [] => [] | _ => [rev token] end
  | c :: rest' =>
      if is_whitespace c
      then match token with
           | [] => words_loop [] rest'
           | _ => rev token :: words_loop [] rest'
           end
      else words_loop (c :: token) rest'
  end.

Definition words (text : JSString) : list JSString := words_loop [] text.

(** Two whitespace code units next to each other somewhere in the string;
    [prev] tells that the code unit before [rest] was whitespace. *)
Fixpoint adjacent_whitespace_from (prev : bool) (rest : JSString) : bool :=
  match rest with
  | [] => false
  | c :: rest' =>
      if is_whitespace c
      then prev || adjacent_whitespace_from true rest'
      else adjacent_whitespace_from false rest'
  end.

Definition adjacent_whitespace (text : JSString) : bool :=
  adjacent_whitespace_from false text.

(** Every whitespace code unit is directly followed by a non-whitespace
    one: no whitespace at the end, no two in a row. *)
Fixpoint followed_by_word (rest : JSString) : bool :=
  match rest with
  | [] => true
  | c :: rest' =>
      (if is_whitespace c
       then match rest' with
            | [] => false
            | d :: _ => negb (is_whitespace d)
            end
       else true)
      && followed_by_word rest'
  end.

(** Words separated by single whitespace code units, with no whitespace
    before the first word or after the last. *)
Definition single_separated (text : JSString) : bool :=
  match text with
  | [] => true
  | c :: _ => negb (is_whitespace c)
  end && followed_by_word text.

Definition whitespace_free (word : JSString) : bool :=
  forallb (fun c => negb (is_whitespace c)) word.

(** [parts.join(sep)]. *)
Fixpoint join (sep : JSString) (parts : list JSString) : JSString :=
  match parts with
  | [] => []
  | [w] => w
  | w :: parts' => w ++ sep ++ join sep parts'
  end.

(** ** The pattern of the label: [^\d+ minute read$] *)

Definition is_digit (c : code_unit) : bool := ((48 <=? c) && (c <=? 57))%N.

Fixpoint String_eqb (a b : JSString) : bool :=
  match a, b with
  | [], [] => true
  | x :: a', y :: b' => (x =? y)%N && String_eqb a' b'
  | _, _ => false
  end.

(** [\d+] is greedy and the code unit after it is a space, so the match
    is decided by dropping the digits in front. *)
Fixpoint drop_digits (s : JSString) : JSString :=
  match s with
  | [] => []
  | c :: s' => if is_digit c then drop_digits s' else s
  end.

Definition matches_minute_read (s : JSString) : bool :=
  match s with
  | [] => false
  | c :: s' => is_digit c && String_eqb (drop_digits s') (lit " minute read")
  end.

(** ** The same body, run by an engine

    What the pure functions above leave out is the state the body touches
    and the ways its steps can fail.  The literal [/\s/g] is a fresh RegExp
    object at every evaluation, with a mutable [lastIndex]; [split] does not
    match with that object but with a copy it constructs with the flag [y]
    added, and moves the copy's [lastIndex] along the input.  A step throws
    when [split] cannot be read from the receiver or is not callable. *)

Module Engine.

Inductive value :=
| VUndefined
| VNull
| VBoolean (b : bool)
| VNumber (x : Q)
| VString (s : JSString).

Inductive exception := TypeError.

(** A RegExp object whose pattern is [\s]: its flags and [lastIndex]. *)
Record RegExpObject := {
  global : bool;
  sticky : bool;
  lastIndex : N
}.

Definition heap := list RegExpObject.
Definition ref := nat.

Inductive completion (A : Type) :=
| Normal (a : A)
| Throw (e : exception).
Arguments Normal {A} a.
Arguments Throw {A} e.

Definition JS (A : Type) : Type := heap -> completion A * heap.

Definition ret {A} (a : A) : JS A := fun h => (Normal a, h).

Definition throw {A} (e : exception) : JS A := fun h => (Throw e, h).

Definition bind {A B} (c : JS A) (k : A -> JS B) : JS B :=
  fun h =>
    match c h with
    | (Normal a, h') => k a h'
    | (Throw e, h') => (Throw e, h')
    end.

Notation "x <- c ;; k" := (bind c (fun x => k))
  (at level 61, c at next level, right associativity).
Notation "c ;; k" := (bind c (fun _ => k))
  (at level 61, right associativity).

Definition alloc (o : RegExpObject) : JS ref :=
  fun h => (Normal (length h), h ++ [o]).

Definition get (r : ref) : JS RegExpObject :=
  fun h =>
    match nth_error h r with
    | Some o => (Normal o, h)
    | None => (Throw TypeError, h)
    end.

Fixpoint update (h : heap) (r : ref) (o : RegExpObject) : heap :=
  match h, r with
  | [], _ => []
  | _ :: h', O => o :: h'
  | o' :: h', S r' => o' :: update h' r' o
  end.

Definition with_lastIndex (o : RegExpObject) (i : N) : RegExpObject :=
  {| global := global o; sticky := sticky o; lastIndex := i |}.

Definition set_lastIndex (r : ref) (i : N) : JS unit :=
  o <- get r ;;
  fun h => (Normal tt, update h r (with_lastIndex o i)).

(** Evaluating the literal [/\s/g]. *)
Definition RegExp_literal : JS ref :=
  alloc {| global := true; sticky := false; lastIndex := 0 |}.

(** The loop of RegExp.prototype[Symbol.split], with [token] and [rest]
    as in [split_loop] and the index [q] of the head of [rest].  Each turn
    sets [lastIndex] to [q] and runs the sticky matcher there: a match
    leaves [lastIndex] at its end [q + 1], a failure resets it to 0. *)
Fixpoint split_steps (splitter : ref) (token : JSString) (q : N)
    (rest : JSString) : JS (list JSString) :=
  match rest with
  | [] => ret [rev token]
  | c :: rest' =>
      set_lastIndex splitter q ;;
      if is_whitespace c
      then set_lastIndex splitter (q + 1) ;;
           parts <- split_steps splitter [] (q + 1) rest' ;;
           ret (rev token :: parts)
      else set_lastIndex splitter 0 ;;
           split_steps splitter (c :: token) (q + 1) rest'
  end.

(** RegExp.prototype[Symbol.split] on the receiver [rx]: the matching is
    done on [splitter], never on [rx].  For the empty input the matcher
    runs once, fails, and the input itself is the only part. *)
Definition RegExp_split (rx : ref) (input : JSString)
  : JS (list JSString) :=
  o <- get rx ;;
  splitter <- alloc {| global := global o; sticky := true; lastIndex := 0 |} ;;
  match input with
  | [] => set_lastIndex splitter 0 ;; ret [input]
  | _ => split_steps splitter [] 0 input
  end.

(** Reading the property [split] of the receiver: [undefined] and [null]
    have no properties, a Number or a Boolean has no [split], a String
    finds String.prototype.split. *)
Definition GetV_split (receiver : value) : JS bool :=
  match receiver with
  | VUndefined | VNull => throw TypeError
  | VBoolean _ | VNumber _ => ret false
  | VString _ => ret true
  end.

(** Calling what was read, after the argument has been evaluated. *)
Definition Call_split (callable : bool) (receiver : value) (separator : ref)
  : JS (list JSString) :=
  match callable, receiver with
  | true, VString input => RegExp_split separator input
  | _, _ => throw TypeError
  end.

Definition run_generateReadingTime (text : value) : JS value :=
  let wordsPerMinute := 200%Q in
  method <- GetV_split text ;;
  separator <- RegExp_literal ;;
  parts <- Call_split method text separator ;;
  let noOfWords := length parts in
  let minutes := inject_Z (Z.of_nat noOfWords) / wordsPerMinute in
  let readTime := Math_ceil minutes in
  ret (VString (Number_toString readTime ++ lit " minute read")).

End Engine.

(** ** Putting the parts back

    [split] drops the separators.  [interleave parts seps] writes the parts
    again with the code units of [seps] between them, one after each part
    as long as there are some. *)

Fixpoint interleave (parts : list JSString) (seps : JSString) : JSString :=
  match parts with
  | [] => []
  | part :: parts' =>
      match seps with
      | [] => part ++ interleave parts' []
      | sep :: seps' => part ++ sep :: interleave parts' seps'
      end
  end.

(** * Properties *)

Example split_hello_world :
  split (lit "hello world") = [lit "hello"; lit "world"].
Proof. reflexivity. Qed.

Example split_double_space :
  split (lit "a  b") = [lit "a"; lit ""; lit "b"].
Proof. reflexivity. Qed.

Example reading_time_hello_world :
  generateReadingTime (lit "hello world") = lit "1 minute read".
Proof. vm_compute. reflexivity. Qed.

Lemma split_loop_length (rest token : JSString) :
  length (split_loop token rest) = S (whitespace_count rest).
Proof.
  revert token.
  induction rest as [|c rest IH]; intros token; [reflexivity|].
  unfold whitespace_count in *; simpl.
  destruct (is_whitespace c); simpl; now rewrite IH.
Qed.

Lemma noOfWords_whitespace (text : JSString) :
  noOfWords text = S (whitespace_count text).
Proof. apply split_loop_length. Qed.

Lemma Math_ceil_div_200 (n : Z) :
  Math_ceil (inject_Z n / wordsPerMinute) = ceil_div_200 n.
Proof.
  unfold Math_ceil, Qceiling, Qfloor, wordsPerMinute, ceil_div_200.
  unfold Qdiv, Qinv, Qmult, Qopp, inject_Z; simpl.
  rewrite Z.mul_1_r.
  pose proof (Z.div_mod (- n) 200 ltac:(lia)) as E1.
  pose proof (Z.mod_pos_bound (- n) 200 ltac:(lia)) as B1.
  pose proof (Z.div_mod (n + 199) 200 ltac:(lia)) as E2.
  pose proof (Z.mod_pos_bound (n + 199) 200 ltac:(lia)) as B2.
  lia.
Qed.

Lemma readTime_ceil (text : JSString) :
  readTime text = ceil_div_200 (Z.of_nat (noOfWords text)).
Proof. apply Math_ceil_div_200. Qed.

(** ** Exact division against binary64 division

    The engine divides in binary64.  Of its rounding the argument needs
    two facts: an integer up to 2^53 is a binary64 number, so a quotient
    equal to one is returned as it is; and up to 2^46 the binary64 numbers
    are at most 2^-7 apart, so rounding to nearest moves a quotient by at
    most 2^-8.  With these the ceiling of the rounded quotient is the
    ceiling of the exact one, for every count below 2^53. *)


Section Binary64.

Variable round : Q -> Q.

Hypothesis round_integer :
  forall (x : Q) (k : Z),
    (0 <= k <= 2 ^ 53)%Z -> x == inject_Z k -> round x == inject_Z k.

Hypothesis round_near :
  forall x : Q,
    0 <= x -> x <= inject_Z (2 ^ 46) -> Qabs (round x - x) <= 1 # 256.


End Binary64.

(** ** Single code units against runs *)

Lemma whitespace_count_cons (c : code_unit) (rest : JSString) :
  whitespace_count (c :: rest) =
  ((if is_whitespace c then 1 else 0) + whitespace_count rest)%nat.
Proof.
  unfold whitespace_count; simpl.
  now destruct (is_whitespace c).
Qed.

Lemma whitespace_count_app (a b : JSString) :
  whitespace_count (a ++ b) = (whitespace_count a + whitespace_count b)%nat.
Proof.
  unfold whitespace_count.
  now rewrite filter_app, length_app.
Qed.

Lemma split_runs_loop_length (rest token : JSString) (in_run : bool) :
  length (split_runs_loop token in_run rest)
  = S (whitespace_runs_from in_run rest).
Proof.
  revert token in_run.
  induction rest as [|c rest IH]; intros token in_run; [reflexivity|].
  simpl.
  destruct (is_whitespace c); [destruct in_run|]; simpl; now rewrite IH.
Qed.

Lemma whitespace_runs_le (rest : JSString) (in_run : bool) :
  (whitespace_runs_from in_run rest <= whitespace_count rest)%nat.
Proof.
  revert in_run.
  induction rest as [|c rest IH]; intros in_run; [reflexivity|].
  rewrite whitespace_count_cons; simpl.
  destruct (is_whitespace c).
  - specialize (IH true). destruct in_run; lia.
  - apply IH.
Qed.

Lemma whitespace_runs_eq_count (rest : JSString) (in_run : bool) :
  whitespace_runs_from in_run rest = whitespace_count rest
  <-> adjacent_whitespace_from in_run rest = false.
Proof.
  revert in_run.
  induction rest as [|c rest IH]; intros in_run; [easy|].
  rewrite whitespace_count_cons; simpl.
  destruct (is_whitespace c).
  - pose proof (whitespace_runs_le rest true) as L.
    specialize (IH true).
    destruct in_run; simpl.
    + split; [lia | discriminate].
    + rewrite <- IH. lia.
  - apply IH.
Qed.

Lemma words_loop_cons (token : JSString) (c : code_unit) (rest : JSString) :
  words_loop token (c :: rest)
  = if is_whitespace c
    then match token with
         | [] => words_loop [] rest
         | _ => rev token :: words_loop [] rest
         end
    else words_loop (c :: token) rest.
Proof. reflexivity. Qed.

Lemma followed_by_word_cons (c : code_unit) (rest : JSString) :
  followed_by_word (c :: rest) = true ->
  followed_by_word rest = true
  /\ (is_whitespace c = true ->
      exists d rest', rest = d :: rest' /\ is_whitespace d = false).
Proof.
  simpl. intros F. apply andb_true_iff in F as [Fc F].
  split; [exact F|]. intros W. rewrite W in Fc.
  destruct rest as [|d rest']; [discriminate|].
  exists d, rest'. split; [reflexivity|]. now apply negb_true_iff.
Qed.

Lemma words_loop_length (rest token : JSString) :
  followed_by_word rest = true ->
  token <> [] \/ (exists c rest', rest = c :: rest' /\ is_whitespace c = false) ->
  length (words_loop token rest) = S (whitespace_count rest).
Proof.
  revert token.
  induction rest as [|c rest IH]; intros token F H.
  - destruct H as [H | (c & r & E & _)]; [|discriminate].
    simpl. now destruct token.
  - rewrite whitespace_count_cons, words_loop_cons.
    apply followed_by_word_cons in F as [F Next].
    destruct (is_whitespace c) eqn:W.
    + destruct H as [H | (c' & r & E & W')];
        [|injection E as <- _; congruence].
      specialize (IH [] F (or_intror (Next eq_refl))).
      destruct token as [|t token]; [congruence|].
      simpl length. now rewrite IH.
    + apply IH; [exact F|]. left. discriminate.
Qed.

Lemma single_separated_words (text : JSString) :
  text <> [] -> single_separated text = true ->
  length (words text) = noOfWords text.
Proof.
  intros NE S.
  rewrite noOfWords_whitespace.
  unfold single_separated in S.
  apply andb_true_iff in S as [S F].
  destruct text as [|c rest]; [congruence|].
  apply words_loop_length; [exact F|].
  right. exists c, rest. split; [reflexivity|].
  now apply negb_true_iff.
Qed.

Lemma ceil_div_200_mono (m n : Z) :
  (m <= n)%Z -> (ceil_div_200 m <= ceil_div_200 n)%Z.
Proof.
  intros L. unfold ceil_div_200.
  apply Z.div_le_mono; lia.
Qed.

Lemma whitespace_free_count (word : JSString) :
  whitespace_free word = true -> whitespace_count word = 0%nat.
Proof.
  induction word as [|c word IH]; [reflexivity|].
  simpl. intros H. apply andb_true_iff in H as [Hc H].
  rewrite whitespace_count_cons, (IH H).
  apply negb_true_iff in Hc. now rewrite Hc.
Qed.

Lemma join_space_count (parts : list JSString) :
  Forall (fun w => whitespace_free w = true) parts ->
  S (whitespace_count (join (lit " ") parts)) = Nat.max 1 (length parts).
Proof.
  induction 1 as [|w parts Hw Hparts IH]; [reflexivity|].
  destruct parts as [|w' parts].
  - simpl. now rewrite (whitespace_free_count _ Hw).
  - change (join (lit " ") (w :: w' :: parts))
      with (w ++ lit " " ++ join (lit " ") (w' :: parts)).
    rewrite !whitespace_count_app, (whitespace_free_count _ Hw).
    change (whitespace_count (lit " ")) with 1%nat.
    simpl length in IH |- *. lia.
Qed.

Lemma generateReadingTime_count (text : JSString) (n : nat) :
  noOfWords text = n ->
  generateReadingTime text
  = Number_toString (ceil_div_200 (Z.of_nat n)) ++ lit " minute read".
Proof.
  intros <-. unfold generateReadingTime. now rewrite readTime_ceil.
Qed.

(** ** The printed number *)

Lemma lit_String (a : ascii) (s : string) :
  lit (String a s) = N_of_ascii a :: lit s.
Proof. reflexivity. Qed.

Lemma string_of_uint_digits (d : Decimal.uint) :
  forallb is_digit (lit (DecimalString.NilEmpty.string_of_uint d)) = true.
Proof.
  induction d; simpl DecimalString.NilEmpty.string_of_uint;
    [reflexivity | rewrite lit_String; simpl forallb; rewrite IHd; reflexivity ..].
Qed.

Lemma string_of_uint_nonempty (d : Decimal.uint) :
  lit (DecimalString.NilZero.string_of_uint d) <> [].
Proof. destruct d; discriminate. Qed.

Lemma NilZero_digits (d : Decimal.uint) :
  forallb is_digit (lit (DecimalString.NilZero.string_of_uint d)) = true.
Proof.
  destruct d; [reflexivity | apply string_of_uint_digits ..].
Qed.

Lemma Number_toString_pos (p : positive) :
  Number_toString (Z.pos p)
  = lit (DecimalString.NilZero.string_of_uint (Pos.to_uint p)).
Proof. reflexivity. Qed.

Lemma Number_toString_not_zero (p : positive) :
  Number_toString (Z.pos p) <> lit "0".
Proof.
  rewrite Number_toString_pos.
  pose proof (DecimalPos.Unsigned.to_uint_nonzero p) as NZ.
  pose proof (DecimalPos.Unsigned.to_uint_nonnil p) as NN.
  destruct (Pos.to_uint p) as [|u|u|u|u|u|u|u|u|u|u];
    try discriminate; [congruence|].
  destruct u; try discriminate.
  now destruct NZ.
Qed.

Lemma ceil_div_200_positive (n : nat) :
  exists p, ceil_div_200 (Z.of_nat (S n)) = Z.pos p.
Proof.
  assert (1 <= ceil_div_200 (Z.of_nat (S n)))%Z as L.
  { change 1%Z with (ceil_div_200 1).
    apply ceil_div_200_mono. lia. }
  destruct (ceil_div_200 (Z.of_nat (S n))) as [|p|p]; try lia.
  now exists p.
Qed.

Lemma readTime_positive (text : JSString) :
  exists p, readTime text = Z.pos p.
Proof.
  rewrite readTime_ceil, noOfWords_whitespace.
  apply ceil_div_200_positive.
Qed.

Lemma drop_digits_app (digits rest : JSString) :
  forallb is_digit digits = true ->
  drop_digits (digits ++ 32%N :: rest) = 32%N :: rest.
Proof.
  induction digits as [|c digits IH]; [reflexivity|].
  simpl. intros H. apply andb_true_iff in H as [Hc H].
  rewrite Hc. now apply IH.
Qed.

Lemma matches_minute_read_intro (digits : JSString) :
  digits <> [] -> forallb is_digit digits = true ->
  matches_minute_read (digits ++ lit " minute read") = true.
Proof.
  intros NE D.
  destruct digits as [|c digits]; [congruence|].
  simpl in D. apply andb_true_iff in D as [Dc D].
  change (lit " minute read") with (32%N :: lit "minute read").
  rewrite <- app_comm_cons. unfold matches_minute_read.
  rewrite Dc, (drop_digits_app _ _ D). reflexivity.
Qed.

Lemma String_eqb_eq (a b : JSString) : String_eqb a b = true <-> a = b.
Proof.
  revert b.
  induction a as [|x a IH]; intros [|y b]; simpl; try easy.
  rewrite andb_true_iff, N.eqb_eq, IH.
  split; [intros [-> ->]; reflexivity | intros [= -> ->]; easy].
Qed.

Lemma drop_digits_split (s : JSString) :
  exists digits,
    forallb is_digit digits = true /\ s = digits ++ drop_digits s.
Proof.
  induction s as [|c s (digits & D & E)]; [now exists []|].
  simpl. destruct (is_digit c) eqn:Dc.
  - exists (c :: digits). simpl. rewrite Dc, D. split; [reflexivity|].
    now rewrite <- E.
  - now exists [].
Qed.

(** The decision procedure is the pattern: a non-empty run of decimal
    digits, then the literal text, then the end of the string. *)
Lemma matches_minute_read_spec (s : JSString) :
  matches_minute_read s = true
  <-> exists digits,
        digits <> [] /\ forallb is_digit digits = true
        /\ s = digits ++ lit " minute read".
Proof.
  split.
  - destruct s as [|c s]; [discriminate|].
    unfold matches_minute_read. intros H.
    apply andb_true_iff in H as [Dc H].
    apply String_eqb_eq in H.
    destruct (drop_digits_split s) as (digits & D & E).
    exists (c :: digits). simpl. rewrite Dc, D.
    repeat split; [discriminate|]. now rewrite <- H, <- E.
  - intros (digits & NE & D & ->). now apply matches_minute_read_intro.
Qed.

(** ** Running the body on a heap *)

Import Engine.

Lemma nth_error_splitter (h : heap) (rx sp : RegExpObject) :
  nth_error (h ++ [rx; sp]) (S (length h)) = Some sp.
Proof. induction h as [|o h IH]; [reflexivity | exact IH]. Qed.

Lemma update_splitter (h : heap) (rx sp o : RegExpObject) :
  update (h ++ [rx; sp]) (S (length h)) o = h ++ [rx; o].
Proof.
  induction h as [|o' h IH]; [reflexivity|].
  simpl in IH |- *. now rewrite IH.
Qed.

Lemma set_lastIndex_splitter (h : heap) (rx sp : RegExpObject) (i : N) :
  set_lastIndex (S (length h)) i (h ++ [rx; sp])
  = (Normal tt, h ++ [rx; with_lastIndex sp i]).
Proof.
  unfold set_lastIndex, bind, get.
  now rewrite nth_error_splitter, update_splitter.
Qed.

Lemma split_steps_run (rest token : JSString) (q : N) (h : heap)
    (rx sp : RegExpObject) :
  exists sp',
    split_steps (S (length h)) token q rest (h ++ [rx; sp])
    = (Normal (split_loop token rest), h ++ [rx; sp']).
Proof.
  revert token q sp.
  induction rest as [|c rest IH]; intros token q sp.
  - now exists sp.
  - simpl. unfold bind at 1. rewrite set_lastIndex_splitter.
    destruct (is_whitespace c).
    + unfold bind at 1. rewrite set_lastIndex_splitter.
      destruct (IH [] (q + 1)%N
                  (with_lastIndex (with_lastIndex sp q) (q + 1))) as (sp' & E).
      exists sp'. unfold bind. now rewrite E.
    + unfold bind at 1. rewrite set_lastIndex_splitter.
      apply IH.
Qed.

Lemma RegExp_split_run (input : JSString) (h : heap) (rx : RegExpObject) :
  exists sp,
    RegExp_split (length h) input (h ++ [rx])
    = (Normal (split input), h ++ [rx; sp]).
Proof.
  unfold RegExp_split, bind at 1, get.
  rewrite nth_error_app2, Nat.sub_diag by reflexivity. simpl nth_error.
  unfold bind at 1, alloc.
  rewrite length_app, Nat.add_1_r, <- app_assoc. simpl app.
  destruct input as [|c input].
  - eexists. unfold bind. rewrite set_lastIndex_splitter. reflexivity.
  - apply split_steps_run.
Qed.

Lemma run_generateReadingTime_string (text : JSString) (h : heap) :
  exists rx sp,
    run_generateReadingTime (VString text) h
    = (Normal (VString (generateReadingTime text)), h ++ [rx; sp]).
Proof.
  unfold run_generateReadingTime, bind at 1. simpl GetV_split.
  unfold ret at 1, bind at 1, RegExp_literal, alloc, bind at 1.
  simpl Call_split.
  destruct (RegExp_split_run text h
              {| global := true; sticky := false; lastIndex := 0 |})
    as (sp & E).
  rewrite E. eexists _, sp. reflexivity.
Qed.

Example run_undefined_throws :
  run_generateReadingTime VUndefined [] = (Throw TypeError, []).
Proof. reflexivity. Qed.

Example run_number_throws :
  fst (run_generateReadingTime (VNumber 3) []) = Throw TypeError.
Proof. reflexivity. Qed.

Example run_tab_newline :
  fst (run_generateReadingTime (VString [97; 9; 10; 98]%N) [])
  = Normal (VString (lit "1 minute read")).
Proof. vm_compute. reflexivity. Qed.

(** * The claims *)

(** C1, as stated, fails: with two spaces between two words the function
    counts three words, one of them the empty token between the spaces,
    while there is one run of whitespace and splitting on runs gives two
    tokens. *)
Lemma runs_as_unit_fails :
  noOfWords (lit "a  b") = 3%nat
  /\ In (lit "") (split (lit "a  b"))
  /\ whitespace_runs (lit "a  b") = 1%nat
  /\ length (split_runs (lit "a  b")) = 2%nat
  /\ noOfWords (lit "a  b") <> length (split_runs (lit "a  b")).
Proof.
  repeat split; try reflexivity.
  - right; left; reflexivity.
  - discriminate.
Qed.

(** C1, amended: the separator is one whitespace code unit, so for every
    input the word count is the number of whitespace code units plus one;
    it is never below the number of tokens that splitting on runs gives,
    and the two agree exactly when no two whitespace code units are next to
    each other. *)
Theorem noOfWords_counts_each_whitespace (text : JSString) :
  noOfWords text = S (whitespace_count text)
  /\ (length (split_runs text) <= noOfWords text)%nat
  /\ (adjacent_whitespace text = false
      <-> noOfWords text = length (split_runs text)).
Proof.
  unfold split_runs, adjacent_whitespace.
  rewrite noOfWords_whitespace, split_runs_loop_length.
  pose proof (whitespace_runs_le text false) as L.
  pose proof (whitespace_runs_eq_count text false) as E.
  repeat split; try lia.
  - intros A. apply E in A. lia.
  - intros H. apply E. lia.
Qed.

Lemma noOfWords_counts_each_whitespace_witness :
  adjacent_whitespace (lit "one two") = false
  /\ noOfWords (lit "one two") = length (split_runs (lit "one two")).
Proof.
  split; [reflexivity|].
  apply (proj1 (proj2 (proj2
           (noOfWords_counts_each_whitespace (lit "one two"))))).
  reflexivity.
Defined.

(** C2, as stated, fails: 150 words with two spaces between neighbours
    make a non-empty input of W = 150 tokens, the ceiling of 150/200 is 1,
    and the function answers 2. *)
Lemma ceil_of_token_count_fails :
  let text := join (lit "  ") (repeat (lit "w") 150) in
  text <> []
  /\ length (words text) = 150%nat
  /\ Math_ceil (inject_Z 150 / wordsPerMinute) = 1%Z
  /\ readTime text = 2%Z
  /\ readTime text
     <> Math_ceil (inject_Z (Z.of_nat (length (words text))) / wordsPerMinute).
Proof.
  repeat split; try (vm_compute; reflexivity);
    vm_compute; discriminate.
Qed.

(** C2, amended: for every non-empty input whose W tokens are separated
    by single whitespace code units, with no whitespace before the first or
    after the last, the minute value is the ceiling of W / 200. *)
Theorem readTime_single_separated (text : JSString) :
  text <> [] -> single_separated text = true ->
  (1 <= length (words text))%nat
  /\ readTime text
     = Math_ceil (inject_Z (Z.of_nat (length (words text))) / wordsPerMinute).
Proof.
  intros NE S.
  rewrite (single_separated_words text NE S).
  split; [rewrite noOfWords_whitespace; lia | reflexivity].
Qed.

Lemma readTime_single_separated_witness :
  length (words (lit "hello world")) = 2%nat
  /\ readTime (lit "hello world") = Math_ceil (2 / wordsPerMinute).
Proof.
  split; [reflexivity|].
  apply (proj2 (readTime_single_separated (lit "hello world")
                  ltac:(discriminate) eq_refl)).
Defined.

(** C3: on the empty string [split] gives one token, the empty one, the
    word count is 1, the ceiling of 1/200 is 1, and the function returns
    "1 minute read". *)
Theorem generateReadingTime_empty :
  split (lit "") = [lit ""]
  /\ noOfWords (lit "") = 1%nat
  /\ Math_ceil (minutes (lit "")) = 1%Z
  /\ generateReadingTime (lit "") = lit "1 minute read".
Proof. repeat split; vm_compute; reflexivity. Qed.

(** C4, as stated, fails: by the tokenization on runs "a", 200 spaces, "b"
    has two words and "a b c" has three, yet the estimate for the first is
    2 minutes and for the second 1. *)
Lemma monotone_in_run_tokens_fails :
  let A := lit "a" ++ repeat 32%N 200 ++ lit "b" in
  let B := lit "a b c" in
  (length (split_runs A) <= length (split_runs B))%nat
  /\ (length (words A) <= length (words B))%nat
  /\ (readTime B < readTime A)%Z.
Proof.
  repeat split.
  - vm_compute. repeat constructor.
  - vm_compute. repeat constructor.
Qed.

(** C4, amended: if A has no more words than B by the count the function
    takes, one word more than A has whitespace code units, then the minute
    estimate for A is at most the one for B. *)
Theorem readTime_monotone (A B : JSString) :
  (noOfWords A <= noOfWords B)%nat -> (readTime A <= readTime B)%Z.
Proof.
  intros L. rewrite !readTime_ceil.
  apply ceil_div_200_mono. lia.
Qed.

Lemma readTime_monotone_witness :
  (readTime (lit "a  b") <= readTime (lit "a b c d"))%Z.
Proof.
  apply (readTime_monotone (lit "a  b") (lit "a b c d")).
  vm_compute. repeat constructor.
Defined.

(** C5: joined by single spaces, 200 words give "1 minute read" and 201
    words give "2 minute read", whatever the words are, as long as none
    contains whitespace. *)
Theorem generateReadingTime_200_201 (parts : list JSString) :
  Forall (fun word => whitespace_free word = true) parts ->
  (length parts = 200%nat ->
   generateReadingTime (join (lit " ") parts) = lit "1 minute read")
  /\ (length parts = 201%nat ->
      generateReadingTime (join (lit " ") parts) = lit "2 minute read").
Proof.
  intros F.
  pose proof (join_space_count parts F) as C.
  rewrite <- noOfWords_whitespace in C.
  split; intros L; rewrite L in C;
    rewrite (generateReadingTime_count _ _ C); reflexivity.
Qed.

Lemma generateReadingTime_200_201_witness :
  generateReadingTime (join (lit " ") (repeat (lit "word") 200))
  = lit "1 minute read"
  /\ generateReadingTime (join (lit " ") (repeat (lit "word") 201))
     = lit "2 minute read".
Proof.
  assert (forall n, Forall (fun word => whitespace_free word = true)
                           (repeat (lit "word") n)) as F.
  { intros n. apply Forall_forall. intros w H.
    apply repeat_spec in H. subst w. reflexivity. }
  split.
  - apply (proj1 (generateReadingTime_200_201 _ (F 200%nat))).
    apply repeat_length.
  - apply (proj2 (generateReadingTime_200_201 _ (F 201%nat))).
    apply repeat_length.
Defined.

(** C6: for every input the returned string matches [^\d+ minute read$]:
    at least one decimal digit, one space, "minute read", and the end. *)
Theorem generateReadingTime_pattern (text : JSString) :
  matches_minute_read (generateReadingTime text) = true
  /\ exists digits,
       digits <> [] /\ forallb is_digit digits = true
       /\ generateReadingTime text = digits ++ lit " minute read".
Proof.
  assert (exists digits,
             digits <> [] /\ forallb is_digit digits = true
             /\ generateReadingTime text = digits ++ lit " minute read") as E.
  { destruct (readTime_positive text) as (p & P).
    exists (Number_toString (Z.pos p)).
    unfold generateReadingTime. rewrite P, Number_toString_pos.
    repeat split; [apply string_of_uint_nonempty | apply NilZero_digits]. }
  split; [|exact E].
  now apply matches_minute_read_spec.
Qed.

(** C7: called with a string, empty, all whitespace or of any length, the
    body completes normally, with the label the pure function computes; it
    throws on no string and on no heap. *)
Theorem generateReadingTime_total (text : JSString) (h : heap) :
  fst (run_generateReadingTime (VString text) h)
  = Normal (VString (generateReadingTime text)).
Proof.
  destruct (run_generateReadingTime_string text h) as (rx & sp & E).
  now rewrite E.
Qed.

(** C8: the result of a call depends on the input alone, so a second call
    on the same input returns the same string whatever happened to the heap
    in between; and a call leaves every object that existed before it as it
    was, adding only the two RegExp objects it creates for itself. *)
Theorem generateReadingTime_deterministic (text : JSString) (h h' : heap) :
  fst (run_generateReadingTime (VString text) h)
  = fst (run_generateReadingTime (VString text) h')
  /\ exists rx sp,
       snd (run_generateReadingTime (VString text) h) = h ++ [rx; sp].
Proof.
  destruct (run_generateReadingTime_string text h) as (rx & sp & E).
  destruct (run_generateReadingTime_string text h') as (rx' & sp' & E').
  rewrite E, E'. split; [reflexivity|].
  now exists rx, sp.
Qed.

(** C9: for every input the word count is the number of whitespace code
    units plus one, the output is the ceiling of that count over 200
    followed by " minute read", and any two inputs with equally many
    whitespace code units give the same output. *)
Theorem output_from_whitespace_count (text : JSString) :
  noOfWords text = (whitespace_count text + 1)%nat
  /\ generateReadingTime text
     = Number_toString
         (Math_ceil (inject_Z (Z.of_nat (whitespace_count text + 1))
                     / wordsPerMinute))
       ++ lit " minute read"
  /\ forall other,
       whitespace_count other = whitespace_count text ->
       generateReadingTime other = generateReadingTime text.
Proof.
  assert (forall t, noOfWords t = (whitespace_count t + 1)%nat) as N.
  { intros t. rewrite noOfWords_whitespace. lia. }
  repeat split.
  - apply N.
  - unfold generateReadingTime, readTime, minutes. now rewrite N.
  - intros other E.
    unfold generateReadingTime, readTime, minutes. now rewrite !N, E.
Qed.

Lemma output_from_whitespace_count_witness :
  generateReadingTime (lit "to be or not") = generateReadingTime (lit "a b c d").
Proof.
  apply (proj2 (proj2 (output_from_whitespace_count (lit "a b c d")))).
  reflexivity.
Defined.

(** C10: for every input the integer in the returned string is at least
    1, and the string is never "0 minute read". *)
Theorem readTime_at_least_one (text : JSString) :
  (1 <= readTime text)%Z
  /\ generateReadingTime text <> lit "0 minute read".
Proof.
  destruct (readTime_positive text) as (p & P).
  split; [rewrite P; lia|].
  unfold generateReadingTime. rewrite P.
  change (lit "0 minute read") with (lit "0" ++ lit " minute read").
  intros H. apply app_inv_tail in H.
  now apply (Number_toString_not_zero p).
Qed.

(** * Further properties of the function *)

(** ** The parts of [split] *)

Lemma whitespace_free_rev (token : JSString) :
  whitespace_free token = true -> whitespace_free (rev token) = true.
Proof.
  unfold whitespace_free. rewrite !forallb_forall.
  intros H c I. apply H. now apply in_rev.
Qed.

Lemma split_loop_whitespace_free (rest token : JSString) :
  whitespace_free token = true ->
  Forall (fun part => whitespace_free part = true) (split_loop token rest).
Proof.
  revert token.
  induction rest as [|c rest IH]; intros token T; simpl.
  - constructor; [now apply whitespace_free_rev | constructor].
  - destruct (is_whitespace c) eqn:W.
    + constructor; [now apply whitespace_free_rev | now apply IH].
    + apply IH. simpl. now rewrite W, T.
Qed.

Lemma split_loop_concat (rest token : JSString) :
  concat (split_loop token rest)
  = rev token ++ filter (fun c => negb (is_whitespace c)) rest.
Proof.
  revert token.
  induction rest as [|c rest IH]; intros token; simpl.
  - reflexivity.
  - destruct (is_whitespace c); simpl.
    + now rewrite IH.
    + rewrite IH. simpl. now rewrite <- app_assoc.
Qed.

Lemma split_loop_interleave (rest token : JSString) :
  interleave (split_loop token rest) (filter is_whitespace rest)
  = rev token ++ rest.
Proof.
  revert token.
  induction rest as [|c rest IH]; intros token; simpl.
  - reflexivity.
  - destruct (is_whitespace c); simpl.
    + now rewrite IH.
    + rewrite IH. simpl. now rewrite <- app_assoc.
Qed.

Lemma split_loop_whitespace_free_input (rest token : JSString) :
  whitespace_free rest = true -> split_loop token rest = [rev token ++ rest].
Proof.
  revert token.
  induction rest as [|c rest IH]; intros token F; simpl.
  - now rewrite app_nil_r.
  - simpl in F. apply andb_true_iff in F as [Fc F].
    apply negb_true_iff in Fc. rewrite Fc, (IH _ F).
    simpl. now rewrite <- app_assoc.
Qed.

Lemma split_loop_whitespace_only (rest token : JSString) :
  forallb is_whitespace rest = true ->
  split_loop token rest = rev token :: repeat [] (length rest).
Proof.
  revert token.
  induction rest as [|c rest IH]; intros token F; simpl.
  - reflexivity.
  - simpl in F. apply andb_true_iff in F as [Fc F].
    now rewrite Fc, (IH _ F).
Qed.

(** X3: no part that [split] returns contains a whitespace code unit, and
    the parts written one after the other are the input with its
    whitespace code units removed. *)
Theorem split_parts_whitespace_free (text : JSString) :
  Forall (fun part => whitespace_free part = true) (split text)
  /\ concat (split text) = filter (fun c => negb (is_whitespace c)) text.
Proof.
  split.
  - now apply split_loop_whitespace_free.
  - apply split_loop_concat.
Qed.

(** X4: [split] loses nothing but the place of the separators: writing
    the whitespace code units of the input, in their order, between the
    parts gives the input back. *)
Theorem split_interleave (text : JSString) :
  interleave (split text) (filter is_whitespace text) = text.
Proof. apply split_loop_interleave. Qed.

(** X5: an input without whitespace, however long, is one part, the input
    itself, and is a one minute read. *)
Theorem whitespace_free_one_minute (text : JSString) :
  whitespace_free text = true ->
  split text = [text]
  /\ generateReadingTime text = lit "1 minute read".
Proof.
  intros F.
  assert (split text = [text]) as E
    by (apply (split_loop_whitespace_free_input text [] F)).
  split; [exact E|].
  apply (generateReadingTime_count text 1). unfold noOfWords. now rewrite E.
Qed.

Lemma whitespace_free_one_minute_witness :
  split (lit "https://www.shuttle.rs/blog") = [lit "https://www.shuttle.rs/blog"]
  /\ generateReadingTime (lit "https://www.shuttle.rs/blog")
     = lit "1 minute read".
Proof.
  apply (whitespace_free_one_minute (lit "https://www.shuttle.rs/blog")).
  reflexivity.
Defined.

(** X6: an input of n whitespace code units and nothing else is n + 1
    empty parts, so it counts n + 1 words and reads ceil((n + 1) / 200)
    minutes. *)
Theorem whitespace_only_counts (text : JSString) :
  forallb is_whitespace text = true ->
  split text = repeat [] (S (length text))
  /\ noOfWords text = S (length text)
  /\ readTime text = ceil_div_200 (Z.of_nat (S (length text))).
Proof.
  intros F.
  assert (split text = repeat [] (S (length text))) as E
    by (apply (split_loop_whitespace_only text [] F)).
  assert (noOfWords text = S (length text)) as N
    by (unfold noOfWords; now rewrite E, repeat_length).
  repeat split; [exact E | exact N |].
  now rewrite readTime_ceil, N.
Qed.

Lemma whitespace_only_counts_witness :
  split [32; 9; 10]%N = [[]; []; []; []]
  /\ noOfWords [32; 9; 10]%N = 4%nat
  /\ readTime [32; 9; 10]%N = 1%Z.
Proof.
  apply (whitespace_only_counts [32; 9; 10]%N).
  reflexivity.
Defined.

(** ** The minute count as a function of the word count *)

Lemma ceil_div_200_bounds (n k : Z) :
  ceil_div_200 n = k <-> (200 * (k - 1) < n <= 200 * k)%Z.
Proof.
  unfold ceil_div_200.
  pose proof (Z.div_mod (n + 199) 200 ltac:(lia)) as E.
  pose proof (Z.mod_pos_bound (n + 199) 200 ltac:(lia)) as B.
  split; intros H; lia.
Qed.

Lemma noOfWords_app (a b : JSString) :
  S (noOfWords (a ++ b)) = (noOfWords a + noOfWords b)%nat.
Proof. rewrite !noOfWords_whitespace, whitespace_count_app. lia. Qed.

Lemma whitespace_count_le_length (text : JSString) :
  (whitespace_count text <= length text)%nat.
Proof. apply filter_length_le. Qed.

(** X1: the estimate is k minutes exactly when the word count is above
    200 (k - 1) and at most 200 k: every full or started block of 200
    words is one minute. *)
Theorem readTime_threshold (text : JSString) (k : Z) :
  readTime text = k
  <-> (200 * (k - 1) < Z.of_nat (noOfWords text) <= 200 * k)%Z.
Proof. rewrite readTime_ceil. apply ceil_div_200_bounds. Qed.

(** X2: for a text made of two pieces the word counts add up to one more
    than the word count of the whole; the estimate of the whole is at
    least the estimate of either piece and at most their sum. *)
Theorem readTime_append (a b : JSString) :
  S (noOfWords (a ++ b)) = (noOfWords a + noOfWords b)%nat
  /\ (readTime a <= readTime (a ++ b))%Z
  /\ (readTime b <= readTime (a ++ b))%Z
  /\ (readTime (a ++ b) <= readTime a + readTime b)%Z.
Proof.
  pose proof (noOfWords_app a b) as N.
  pose proof (noOfWords_whitespace a) as Na.
  pose proof (noOfWords_whitespace b) as Nb.
  split; [exact N|].
  rewrite !readTime_ceil.
  pose proof (proj1 (ceil_div_200_bounds (Z.of_nat (noOfWords a)) _) eq_refl).
  pose proof (proj1 (ceil_div_200_bounds (Z.of_nat (noOfWords b)) _) eq_refl).
  pose proof (proj1 (ceil_div_200_bounds (Z.of_nat (noOfWords (a ++ b))) _)
                eq_refl).
  repeat split; lia.
Qed.

(** X9: the estimate never exceeds one minute more than a two-hundredth
    of the length of the input, counted in code units. *)
Theorem readTime_length_bound (text : JSString) :
  (noOfWords text <= S (length text))%nat
  /\ (readTime text <= Z.of_nat (length text) / 200 + 1)%Z.
Proof.
  pose proof (whitespace_count_le_length text) as L.
  pose proof (noOfWords_whitespace text) as N.
  split; [lia|].
  rewrite readTime_ceil.
  replace (Z.of_nat (length text) / 200 + 1)%Z
    with (ceil_div_200 (Z.of_nat (length text) + 1)).
  - apply ceil_div_200_mono. lia.
  - unfold ceil_div_200.
    replace (Z.of_nat (length text) + 1 + 199)%Z
      with (1 * 200 + Z.of_nat (length text))%Z by lia.
    rewrite Z.div_add_l by lia. lia.
Qed.

(** ** The label and the number in it *)

Lemma lit_inj (s t : string) : lit s = lit t -> s = t.
Proof.
  unfold lit. intros H.
  rewrite <- (string_of_list_ascii_of_string s),
          <- (string_of_list_ascii_of_string t).
  f_equal.
  revert H. generalize (list_ascii_of_string s) (list_ascii_of_string t).
  induction l as [|x l IH]; intros [|y l']; simpl; try discriminate;
    [reflexivity|].
  intros [= Hxy Hl]. f_equal; [|now apply IH].
  now rewrite <- (ascii_N_embedding x), Hxy, ascii_N_embedding.
Qed.

Lemma Number_toString_pos_inj (p q : positive) :
  Number_toString (Z.pos p) = Number_toString (Z.pos q) -> p = q.
Proof.
  rewrite !Number_toString_pos. intros H. apply lit_inj in H.
  apply DecimalPos.Unsigned.to_uint_inj.
  pose proof (DecimalPos.Unsigned.to_uint_nonnil p) as Np.
  pose proof (DecimalPos.Unsigned.to_uint_nonnil q) as Nq.
  assert (DecimalString.NilEmpty.string_of_uint (Pos.to_uint p)
          = DecimalString.NilEmpty.string_of_uint (Pos.to_uint q)) as H'.
  { unfold DecimalString.NilZero.string_of_uint in H.
    destruct (Pos.to_uint p), (Pos.to_uint q); congruence. }
  apply (f_equal DecimalString.NilEmpty.uint_of_string) in H'.
  rewrite !DecimalString.NilEmpty.usu in H'. congruence.
Qed.

(** X7: the label tells the estimate: two inputs get the same label
    exactly when they get the same minute count. *)
Theorem generateReadingTime_label_iff (a b : JSString) :
  generateReadingTime a = generateReadingTime b <-> readTime a = readTime b.
Proof.
  unfold generateReadingTime. split; [|now intros ->].
  intros H. apply app_inv_tail in H.
  destruct (readTime_positive a) as (p & P).
  destruct (readTime_positive b) as (q & Q).
  rewrite P, Q in H |- *.
  f_equal. now apply Number_toString_pos_inj.
Qed.

(** ** The division in binary64, at an instance *)

